(** * simple-dialog: SimpleDialog, AlertDialog, ConfirmDialog, PromptDialog

    A shallow embedding of [src/simple-dialog.tsx].  The React components are
    modelled by their [render] functions (pure functions from props and state
    to a description of the rendered tree) and by their event handlers (state
    transformers over the component state and the surrounding world). *)

From stdpp Require Import gmap strings list fin_maps.
From Stdlib Require Import ZArith.

Open Scope Z_scope.
Open Scope string_scope.
Open Scope list_scope.
Local Set Warnings "-register-all".

(** ** JavaScript values *)

(** Function objects.  [Extern f] is a function supplied by the embedding
    application; the other constructors are the arrow functions that the
    variant dialogs store in their instance fields.  Such an arrow function
    reads [this.props.onClose] when it is called; React re-renders on every
    props change, so the descriptor handed to SimpleDialog by [render] with
    props [p] is activated while [this.props = p], and the closure is
    represented with the [onClose] (and the instance [this]) it will read. *)
Inductive Closure : Type :=
| Extern (f : nat)
| Confirm_onConfirm (onClose : nat)
| Confirm_onReject (onClose : nat)
| Prompt_onConfirm (this onClose : nat)
| Prompt_onReject (this onClose : nat)
| Prompt_onValueChanged (this : nat).

(** Run-time values that travel through callbacks.  Objects carry the
    reference that [===] compares and a snapshot of their own properties
    (the code under study never mutates an object). *)
Inductive JsValue : Type :=
| VUndefined
| VNull
| VBool (b : bool)
| VNumber (n : Z)
| VNaN
| VString (s : string)
| VFunction (c : Closure)
| VObject (ref : nat) (fields : gmap string JsValue).

(** Property bags (the Fluent UI [I...Props] objects that are passed
    through).  Only their own enumerable properties matter to the code. *)
Inductive PropValue : Type :=
| PUndefined
| PNull
| PBool (b : bool)
| PNum (n : Z)
| PStr (s : string)
| PFun (c : Closure)
| PObj (fields : gmap string PropValue).

Abbreviation Props := (gmap string PropValue).

(** [if (v)], [v || d], [v && e]: the values that count as false. *)
Definition truthy (v : JsValue) : bool :=
  match v with
  | VUndefined | VNull | VNaN => false
  | VBool b => b
  | VNumber n => negb (Z.eqb n 0)
  | VString s => negb (String.eqb s "")
  | VFunction _ | VObject _ _ => true
  end.

Definition p_truthy (v : PropValue) : bool :=
  match v with
  | PUndefined | PNull => false
  | PBool b => b
  | PNum n => negb (Z.eqb n 0)
  | PStr s => negb (String.eqb s "")
  | PFun _ | PObj _ => true
  end.

(** [typeof v] *)
Definition typeof (v : JsValue) : string :=
  match v with
  | VUndefined => "undefined"
  | VNull => "object"
  | VBool _ => "boolean"
  | VNumber _ | VNaN => "number"
  | VString _ => "string"
  | VFunction _ => "function"
  | VObject _ _ => "object"
  end.

#[global] Instance Closure_eq_dec : EqDecision Closure.
Proof. solve_decision. Defined.

(** [a === b]: primitives by value ([NaN] differs from itself), objects and
    functions by reference. *)
Definition strict_eq (a b : JsValue) : bool :=
  match a, b with
  | VUndefined, VUndefined => true
  | VNull, VNull => true
  | VBool x, VBool y => Bool.eqb x y
  | VNumber x, VNumber y => Z.eqb x y
  | VString x, VString y => String.eqb x y
  | VFunction x, VFunction y => bool_decide (x = y)
  | VObject r1 _, VObject r2 _ => Nat.eqb r1 r2
  | _, _ => false
  end.

(** [v.k] on a value that is not [null] or [undefined]. *)
Definition get_prop (v : JsValue) (k : string) : JsValue :=
  match v with
  | VObject _ fields => default VUndefined (fields !! k)
  | _ => VUndefined
  end.

(** An optional string property used as a condition or on the left of [||]. *)
Definition str_truthy (o : option string) : bool :=
  match o with
  | Some s => negb (String.eqb s "")
  | None => false
  end.

(** [o || d] for an optional string property [o]. *)
Definition str_or (o : option string) (d : string) : string :=
  match o with
  | Some s => if String.eqb s "" then d else s
  | None => d
  end.

(** [{...o}] for an optional property bag: spreading [undefined] adds
    nothing. *)
Definition spread (o : option Props) : Props := default ∅ o.

(** [o?.k] *)
Definition opt_get (o : option Props) (k : string) : PropValue :=
  match o with
  | Some m => default PUndefined (m !! k)
  | None => PUndefined
  end.

(** ** Interfaces *)

(** [string | JSX.Element]: the dialog body.  [ECustom] is an element built
    by the caller; the other constructors are what [PromptDialog] builds. *)
Inductive Element : Type :=
| EText (s : string)
| ECustom (id : nat)
| ETextField (props : Props)
| EFragment (children : list Element)
| ELabel (children : list Element).

Record IBaseDialogProps : Type := {
  title : option string;
  message : Element;
  dialogProps : option Props;
  dialogContentProps : option Props;
  modalProps : option Props
}.

Inductive SimpleDialogButtonType : Type := Primary | Default.

Record ISimpleDialogButtonProps : Type := {
  btn_type : SimpleDialogButtonType;
  btn_text : string;
  btn_styles : option Props;
  btn_onClick : JsValue;
  btn_href : option string;
  btn_target : option string
}.

Record ISimpleDialogProps : Type := {
  simple_base : IBaseDialogProps;
  buttons : list ISimpleDialogButtonProps
}.

(** The state holds whatever truthy values the click handlers returned. *)
Record ISimpleDialogState : Type := { messages : list JsValue }.

Record IAlertDialogProps : Type := {
  alert_base : IBaseDialogProps;
  alert_buttonText : option string;
  alert_onClose : nat
}.

Record IConfirmDialogProps : Type := {
  confirm_base : IBaseDialogProps;
  confirm_confirmButtonText : option string;
  confirm_rejectButtonText : option string;
  confirm_onClose : nat
}.

Record IPromptDialogProps : Type := {
  prompt_base : IBaseDialogProps;
  prompt_confirmButtonText : option string;
  prompt_rejectButtonText : option string;
  prompt_textFieldProps : option Props;
  prompt_messageAsLabel : option bool;
  prompt_onClose : nat
}.

(** ** The world around the components *)

(** [calls] logs every invocation of a caller-supplied function, oldest
    first; [console] is what [console.warn] printed; [_value] holds the
    private field of that name of each PromptDialog instance; [user] is the
    state of the embedding application, which only its own functions touch. *)
Record World (U : Type) : Type := {
  calls : list (nat * list JsValue);
  console : list string;
  _value : gmap nat JsValue;
  user : U
}.
Arguments calls {U} _.
Arguments console {U} _.
Arguments _value {U} _.
Arguments user {U} _.

Inductive Completion (A : Type) : Type :=
| Normal (a : A)
| Throw (error : string).
Arguments Normal {A} a.
Arguments Throw {A} error.

(** Handlers run to completion on the world and either return or throw. *)
Definition M (U A : Type) : Type := World U -> Completion A * World U.

#[global] Instance M_ret {U} : MRet (M U) := fun A a w => (Normal a, w).

#[global] Instance M_bind {U} : MBind (M U) := fun A B k m w =>
  match m w with
  | (Normal a, w') => k a w'
  | (Throw e, w') => (Throw e, w')
  end.

Definition throw {U A} (e : string) : M U A := fun w => (Throw e, w).

Definition console_warn {U} (s : string) : M U unit :=
  fun w => (Normal tt,
            {| calls := calls w; console := console w ++ [s];
               _value := _value w; user := user w |}).

(** [this._value] and [this._value = v] *)
Definition read_value {U} (this : nat) : M U JsValue :=
  fun w => (Normal (default VUndefined (_value w !! this)), w).

Definition write_value {U} (this : nat) (v : JsValue) : M U unit :=
  fun w => (Normal tt,
            {| calls := calls w; console := console w;
               _value := <[this := v]> (_value w); user := user w |}).

(** ** What [render] produces *)

(** A [PrimaryButton] or [DefaultButton].  [be_onClick] is the handler
    [(event) => this._onButtonClicked(b, event)], kept as the descriptor [b]
    it closes over; [None] when no handler is attached. *)
Record ButtonElement : Type := {
  be_type : SimpleDialogButtonType;
  be_text : string;
  be_href : option string;
  be_target : option string;
  be_styles : option Props;
  be_onClick : option ISimpleDialogButtonProps
}.

(** A [MessageBar].  [mb_onDismiss] is the handler
    [() => this._onMessageDismissed(m)], kept as the [m] it closes over. *)
Record MessageBarElement : Type := {
  mb_styles : JsValue;
  mb_messageBarType : JsValue;
  mb_children : JsValue;
  mb_onDismiss : JsValue
}.

(** The [Dialog] element: its props, the body, the message bars and one
    entry per descriptor of [buttons] ([None] where the callback of
    [buttons.map] returned [undefined], which React does not render). *)
Record DialogElement : Type := {
  dlg_props : Props;
  dlg_message : Element;
  dlg_messageBars : list MessageBarElement;
  dlg_buttons : list (option ButtonElement)
}.

(** [{...target, ...source}]: own properties of [source] replace those of
    [target], whatever their value. *)
Definition assign (target source : Props) : Props := source ∪ target.

(** [DialogType.normal], the first member of the Fluent UI enum. *)
Definition DialogType_normal : PropValue := PNum 0.

(** ** Calling functions *)

(** What the functions of the embedding application do: [ext f args u] is
    the value [f(...args)] returns and the application state it leaves.
    They are assumed to return normally. *)
Abbreviation ExternFns U := (nat -> list JsValue -> U -> JsValue * U).

Definition call_extern {U} (ext : ExternFns U) (f : nat) (args : list JsValue)
  : M U JsValue :=
  fun w =>
    let '(r, u') := ext f args (user w) in
    (Normal r,
     {| calls := calls w ++ [(f, args)]; console := console w;
        _value := _value w; user := u' |}).

Definition SimpleDialog_button (type : SimpleDialogButtonType) (text : string)
    (onClick : JsValue) : ISimpleDialogButtonProps :=
  {| btn_type := type; btn_text := text; btn_styles := None;
     btn_onClick := onClick; btn_href := None; btn_target := None |}.

(** [<SimpleDialog title={title} message={message} buttons={buttons} />]:
    the element the three variants return; no other prop is handed on. *)
Definition SimpleDialog_element (title : option string) (message : Element)
    (buttons : list ISimpleDialogButtonProps) : ISimpleDialogProps :=
  {| simple_base := {| title := title; message := message; dialogProps := None;
                       dialogContentProps := None; modalProps := None |};
     buttons := buttons |}.

Module ConfirmDialog.
Section Handlers.
Context {U : Type}.
Variable ext : ExternFns U.

Definition onConfirm (onClose : nat) : M U JsValue :=
  call_extern ext onClose [VBool true];; mret VUndefined.

Definition onReject (onClose : nat) : M U JsValue :=
  call_extern ext onClose [VBool false];; mret VUndefined.
End Handlers.

Definition render (props : IConfirmDialogProps) : ISimpleDialogProps :=
  SimpleDialog_element (title (confirm_base props)) (message (confirm_base props))
    [ SimpleDialog_button Default (str_or (confirm_rejectButtonText props) "No")
        (VFunction (Confirm_onReject (confirm_onClose props)));
      SimpleDialog_button Primary (str_or (confirm_confirmButtonText props) "Yes")
        (VFunction (Confirm_onConfirm (confirm_onClose props))) ].
End ConfirmDialog.

Module PromptDialog.
Definition warning : string :=
  "PromptDialog: messageAsLabel will be ignored because the textFieldProps.label has a value.".

Section Handlers.
Context {U : Type}.
Variable ext : ExternFns U.

(** The field initialiser [_value = ''] runs right after [super(props)],
    before the body of the constructor. *)
Definition constructor (this : nat) (props : IPromptDialogProps) : M U unit :=
  write_value this (VString "");;
  if default false (prompt_messageAsLabel props)
     && p_truthy (opt_get (prompt_textFieldProps props) "label")
  then console_warn warning
  else mret tt.

Definition onConfirm (this onClose : nat) : M U JsValue :=
  v ← read_value this;
  call_extern ext onClose [v];; mret VUndefined.

Definition onReject (this onClose : nat) : M U JsValue :=
  call_extern ext onClose [VNull];; mret VUndefined.

Definition onValueChanged (this : nat) (_ev newValue : JsValue) : M U JsValue :=
  write_value this newValue;; mret VUndefined.
End Handlers.

Definition renderMessage (this : nat) (props : IPromptDialogProps) : Element :=
  let content :=
    EFragment [ message (prompt_base props);
                ETextField (<["onChange" := PFun (Prompt_onValueChanged this)]>
                              (spread (prompt_textFieldProps props))) ] in
  if default false (prompt_messageAsLabel props)
     && negb (p_truthy (opt_get (prompt_textFieldProps props) "label"))
  then ELabel [content]
  else content.

Definition render (this : nat) (props : IPromptDialogProps) : ISimpleDialogProps :=
  SimpleDialog_element (title (prompt_base props)) (renderMessage this props)
    [ SimpleDialog_button Default (str_or (prompt_rejectButtonText props) "No")
        (VFunction (Prompt_onReject this (prompt_onClose props)));
      SimpleDialog_button Primary (str_or (prompt_confirmButtonText props) "Yes")
        (VFunction (Prompt_onConfirm this (prompt_onClose props))) ].
End PromptDialog.

Section Call.
Context {U : Type}.
Variable ext : ExternFns U.

(** [c(...args)]; a missing argument reads as [undefined]. *)
Definition call_closure (c : Closure) (args : list JsValue) : M U JsValue :=
  match c with
  | Extern f => call_extern ext f args
  | Confirm_onConfirm onClose => ConfirmDialog.onConfirm ext onClose
  | Confirm_onReject onClose => ConfirmDialog.onReject ext onClose
  | Prompt_onConfirm this onClose => PromptDialog.onConfirm ext this onClose
  | Prompt_onReject this onClose => PromptDialog.onReject ext this onClose
  | Prompt_onValueChanged this =>
      PromptDialog.onValueChanged this (nth 0 args VUndefined) (nth 1 args VUndefined)
  end.

(** [v(...args)] for an arbitrary value [v]. *)
Definition call_value (v : JsValue) (args : list JsValue) : M U JsValue :=
  match v with
  | VFunction c => call_closure c args
  | _ => throw "TypeError: not a function"
  end.
End Call.

Module SimpleDialog.

Definition constructor (props : ISimpleDialogProps) : ISimpleDialogState :=
  {| messages := [] |}.

Section Handlers.
Context {U : Type}.
Variable ext : ExternFns U.

(** [setState] is modelled as replacing the state: a handler runs to
    completion, and React applies the update before the next event. *)
Definition _onButtonClicked (button : ISimpleDialogButtonProps) (event : JsValue)
    (state : ISimpleDialogState) : M U ISimpleDialogState :=
  buttonResult ←
    (if String.eqb (typeof (btn_onClick button)) "function"
     then call_value ext (btn_onClick button) [event]
     else mret (VBool false));
  if truthy buttonResult
  then mret {| messages := messages state ++ [buttonResult] |}
  else mret state.
End Handlers.

Definition _onMessageDismissed (message : JsValue) (state : ISimpleDialogState)
  : ISimpleDialogState :=
  {| messages := List.filter (fun m => negb (strict_eq m message)) (messages state) |}.

Definition content_defaults : Props :=
  <["showCloseButton" := PBool false]> (<["type" := DialogType_normal]> ∅).

Definition modal_defaults : Props :=
  <["styles" := PObj (<["main" := PObj (<["maxWidth" := PNum 450]>
                                        (<["minWidth" := PNum 450]> ∅))]> ∅)]>
    (<["isBlocking" := PBool true]> ∅).

Definition render_dialogContentProps (props : ISimpleDialogProps) : Props :=
  <["title" := PStr (str_or (title (simple_base props)) "")]>
    (assign content_defaults (spread (dialogContentProps (simple_base props)))).

Definition render_modalProps (props : ISimpleDialogProps) : Props :=
  assign modal_defaults (spread (modalProps (simple_base props))).

(** The props of the [Dialog] element apart from its children.  A
    [children] property of [dialogProps] is replaced by the JSX children
    (the body, the message bars and the buttons, which [DialogElement]
    keeps in fields of their own), and React takes [key] and [ref] out of
    the props of an element. *)
Definition render_dialog_props (props : ISimpleDialogProps) : Props :=
  <["modalProps" := PObj (render_modalProps props)]>
    (<["dialogContentProps" := PObj (render_dialogContentProps props)]>
       (<["hidden" := PBool false]>
          (delete "children"
             (delete "key" (delete "ref" (spread (dialogProps (simple_base props)))))))).

Definition render_message_bar (m : JsValue) : MessageBarElement :=
  {| mb_styles := get_prop m "styles";
     mb_messageBarType := get_prop m "type";
     mb_children := get_prop m "text";
     mb_onDismiss := m |}.

Definition render_button (b : ISimpleDialogButtonProps) : option ButtonElement :=
  if truthy (btn_onClick b) || str_truthy (btn_href b) then
    Some {| be_type := btn_type b;
            be_text := btn_text b;
            be_href := btn_href b;
            be_target := btn_target b;
            be_styles := btn_styles b;
            be_onClick := if truthy (btn_onClick b) then Some b else None |}
  else None.

Definition render (props : ISimpleDialogProps) (state : ISimpleDialogState)
  : DialogElement :=
  {| dlg_props := render_dialog_props props;
     dlg_message := message (simple_base props);
     dlg_messageBars := map render_message_bar (messages state);
     dlg_buttons := map render_button (buttons props) |}.

End SimpleDialog.

Module AlertDialog.
Definition render (props : IAlertDialogProps) : ISimpleDialogProps :=
  SimpleDialog_element (title (alert_base props)) (message (alert_base props))
    [ SimpleDialog_button Primary (str_or (alert_buttonText props) "Okay")
        (VFunction (Extern (alert_onClose props))) ].
End AlertDialog.

(** ** User interaction with a rendered SimpleDialog *)

Section Interaction.
Context {U : Type}.
Variable ext : ExternFns U.

(** The user activates a rendered button: its click handler runs, if it
    has one (a link button navigates, which leaves the component alone). *)
Definition activate (e : ButtonElement) (event : JsValue)
    (state : ISimpleDialogState) : M U ISimpleDialogState :=
  match be_onClick e with
  | Some b => SimpleDialog._onButtonClicked ext b event state
  | None => mret state
  end.

(** The user clicks what the [i]-th descriptor rendered. *)
Definition click (props : ISimpleDialogProps) (i : nat) (event : JsValue)
    (state : ISimpleDialogState) : M U ISimpleDialogState :=
  match dlg_buttons (SimpleDialog.render props state) !! i with
  | Some (Some e) => activate e event state
  | _ => mret state
  end.

(** The user dismisses a rendered message bar. *)
Definition dismiss (bar : MessageBarElement) (state : ISimpleDialogState)
  : ISimpleDialogState :=
  SimpleDialog._onMessageDismissed (mb_onDismiss bar) state.

(** A series of button activations, each run to completion before the
    next. *)
Fixpoint activations (acts : list (ISimpleDialogButtonProps * JsValue))
    (state : ISimpleDialogState) : M U ISimpleDialogState :=
  match acts with
  | [] => mret state
  | (b, event) :: rest =>
      state' ← SimpleDialog._onButtonClicked ext b event state;
      activations rest state'
  end.

(** The click handlers of a series of activations called on their own, in
    order, each with its event: the values they return, and the world they
    leave.  A handler that is not a function is not called. *)
Fixpoint handler_returns (acts : list (ISimpleDialogButtonProps * JsValue))
    (w : World U) : list JsValue * World U :=
  match acts with
  | [] => ([], w)
  | (b, event) :: rest =>
      match btn_onClick b with
      | VFunction c =>
          match call_closure ext c [event] w with
          | (Normal r, w') =>
              let '(rs, w'') := handler_returns rest w' in (r :: rs, w'')
          | (Throw _, w') => ([], w')
          end
      | _ => handler_returns rest w
      end
  end.

(** The text field fires a change event: its [onChange] prop is called
    with the event and the new value. *)
Definition change (field : Props) (event newValue : JsValue) : M U JsValue :=
  match field !! "onChange" with
  | Some (PFun c) => call_closure ext c [event; newValue]
  | _ => mret VUndefined
  end.
End Interaction.

(** The text field that [PromptDialog.renderMessage] puts after the message,
    inside the fragment and, when there is one, inside the label. *)
Definition prompt_field (e : Element) : option Props :=
  match e with
  | EFragment [_; ETextField field] => Some field
  | ELabel [EFragment [_; ETextField field]] => Some field
  | _ => None
  end.

(** The props of the text field of a PromptDialog: those of the caller with
    [onChange] set to the dialog's own handler. *)
Definition prompt_text_field (this : nat) (p : IPromptDialogProps) : Props :=
  <["onChange" := PFun (Prompt_onValueChanged this)]> (spread (prompt_textFieldProps p)).

(** ** A mounted PromptDialog *)

Section Prompt.
Context {U : Type}.
Variable ext : ExternFns U.

(** Mounting constructs the PromptDialog and the SimpleDialog it renders. *)
Definition prompt_mount (this : nat) (props : IPromptDialogProps)
  : M U ISimpleDialogState :=
  PromptDialog.constructor this props;;
  mret (SimpleDialog.constructor (PromptDialog.render this props)).

(** The user edits the text field: one change event per entry of
    [inputs], each an event and the new value. *)
Fixpoint prompt_typing (this : nat) (props : IPromptDialogProps)
    (state : ISimpleDialogState) (inputs : list (JsValue * JsValue)) : M U unit :=
  match inputs with
  | [] => mret tt
  | (event, newValue) :: rest =>
      match prompt_field
              (dlg_message (SimpleDialog.render (PromptDialog.render this props) state)) with
      | Some field => change ext field event newValue;; prompt_typing this props state rest
      | None => prompt_typing this props state rest
      end
  end.

(** Mount, then any number of re-renders with new props: only the first
    step runs the constructor. *)
Definition prompt_lifecycle (this : nat) (props : IPromptDialogProps)
    (updates : list IPromptDialogProps) : M U (list ISimpleDialogProps) :=
  PromptDialog.constructor this props;;
  mret (map (PromptDialog.render this) (props :: updates)).
End Prompt.

(** ** Reference definitions *)

(** Follows the spec's words for dismissal: remove the first list entry that
    is equal by reference to [m], and nothing else. *)
Fixpoint remove_first_equal (m : JsValue) (l : list JsValue) : list JsValue :=
  match l with
  | [] => []
  | x :: l' => if strict_eq x m then l' else x :: remove_first_equal m l'
  end.

(** [l.filter(x => x !== m)], the list that dismissal computes. *)
Definition without (m : JsValue) (l : list JsValue) : list JsValue :=
  List.filter (fun x => negb (strict_eq x m)) l.

(** [v.k1.k2...]: [None] as soon as a property is missing. *)
Fixpoint lookup_path (path : list string) (v : PropValue) : option PropValue :=
  match path with
  | [] => Some v
  | k :: rest =>
      match v with
      | PObj fields =>
          match fields !! k with
          | Some v' => lookup_path rest v'
          | None => None
          end
      | _ => None
      end
  end.

(** What a button stack shows: for each descriptor, the kind and the label
    of the button it rendered, if any. *)
Definition shown (d : DialogElement) : list (option (SimpleDialogButtonType * string)) :=
  map (option_map (fun e => (be_type e, be_text e))) (dlg_buttons d).

(** The world after one call [f(...args)] of a caller's function and nothing
    else. *)
Definition called {U} (ext : ExternFns U) (f : nat) (args : list JsValue)
    (w : World U) : World U :=
  {| calls := calls w ++ [(f, args)]; console := console w;
     _value := _value w; user := (ext f args (user w)).2 |}.

(** The overrides as the caller hands them to SimpleDialog, in the shape of
    the final configuration. *)
Definition caller_overrides (props : ISimpleDialogProps) : PropValue :=
  PObj (<["modalProps" := PObj (spread (modalProps (simple_base props)))]>
          (<["dialogContentProps" := PObj (spread (dialogContentProps (simple_base props)))]>
             (spread (dialogProps (simple_base props))))).

(** Follows the spec's words for an internal default [d] at [path]: it
    cannot be unset, and the caller wins only for a field it sets.  So the
    final configuration holds, at [path], either [d] or the value that the
    caller's overrides hold there. *)
Definition default_kept_or_overridden (props : ISimpleDialogProps)
    (path : list string) (d : PropValue) : Prop :=
  ∃ v, lookup_path path (PObj (SimpleDialog.render_dialog_props props)) = Some v
       ∧ (v = d ∨ lookup_path path (caller_overrides props) = Some v).

(** Follows the spec's words for a click handler that is not callable: the
    descriptor as it would be with the handler absent. *)
Definition without_onClick (b : ISimpleDialogButtonProps) : ISimpleDialogButtonProps :=
  {| btn_type := btn_type b; btn_text := btn_text b; btn_styles := btn_styles b;
     btn_onClick := VUndefined; btn_href := btn_href b; btn_target := btn_target b |}.

(** [SimpleDialog] given the base props of [base] and [buttons]. *)
Definition SimpleDialog_with (base : IBaseDialogProps)
    (buttons : list ISimpleDialogButtonProps) : ISimpleDialogProps :=
  {| simple_base := base; buttons := buttons |}.

(** ** A small embedding application, used to run the components *)

Module Demo.
(** Function 0 returns nothing, function 1 returns the same message object
    on every call, any other function returns a string; each call is
    counted in the application state. *)
Definition saved : JsValue :=
  VObject 1 (<["text" := VString "Saved"]> (<["type" := VNumber 4]> ∅)).

Definition ext : ExternFns nat := fun f args u =>
  (match f with
   | O => VUndefined
   | S O => saved
   | _ => VString "done"
   end, S u).

Definition world : World nat :=
  {| calls := []; console := []; _value := ∅; user := O |}.

Definition event : JsValue := VObject 7 (<["type" := VString "click"]> ∅).

Definition base : IBaseDialogProps :=
  {| title := Some "Hi!"; message := EText "What is your name?";
     dialogProps := None; dialogContentProps := None; modalProps := None |}.

Definition empty : ISimpleDialogState := {| messages := [] |}.

(** A button whose handler is function 1, and one whose handler is a
    string. *)
Definition save : ISimpleDialogButtonProps :=
  SimpleDialog_button Primary "Save" (VFunction (Extern 1)).

Definition broken : ISimpleDialogButtonProps :=
  SimpleDialog_button Default "Go" (VString "save").

Definition alert (onClose : nat) : IAlertDialogProps :=
  {| alert_base := base; alert_buttonText := None; alert_onClose := onClose |}.

(** A prompt that asks for the message as label and may bring a label of
    its own. *)
Definition prompt (textFieldProps : option Props) : IPromptDialogProps :=
  {| prompt_base := base; prompt_confirmButtonText := None;
     prompt_rejectButtonText := None; prompt_textFieldProps := textFieldProps;
     prompt_messageAsLabel := Some true; prompt_onClose := O |}.

Definition labelled : option Props := Some (<["label" := PStr "Name"]> ∅).

(** A SimpleDialog without buttons that is given some overrides. *)
Definition configured (dialog content modal : option Props) : ISimpleDialogProps :=
  SimpleDialog_with
    {| title := None; message := EText "Hello World!"; dialogProps := dialog;
       dialogContentProps := content; modalProps := modal |} [].
End Demo.

(** ** A mounted SimpleDialog *)

(** What the user can do with a rendered SimpleDialog: click what the
    [i]-th descriptor rendered, or dismiss the [j]-th message bar. *)
Inductive UserEvent : Type :=
| Click (i : nat) (event : JsValue)
| DismissBar (j : nat).

Definition is_click (e : UserEvent) : bool :=
  match e with
  | Click _ _ => true
  | DismissBar _ => false
  end.

Section Session.
Context {U : Type}.
Variable ext : ExternFns U.

(** One user event, handled on the tree rendered from the current state. *)
Definition handle (props : ISimpleDialogProps) (e : UserEvent)
    (state : ISimpleDialogState) : M U ISimpleDialogState :=
  match e with
  | Click i event => click ext props i event state
  | DismissBar j =>
      match dlg_messageBars (SimpleDialog.render props state) !! j with
      | Some bar => mret (dismiss bar state)
      | None => mret state
      end
  end.

Fixpoint session (props : ISimpleDialogProps) (events : list UserEvent)
    (state : ISimpleDialogState) : M U ISimpleDialogState :=
  match events with
  | [] => mret state
  | e :: rest => state' ← handle props e state; session props rest state'
  end.

(** The dialog is constructed, then used. *)
Definition mounted (props : ISimpleDialogProps) (events : list UserEvent)
  : M U ISimpleDialogState :=
  session props events (SimpleDialog.constructor props).
End Session.

(** The buttons React shows: the entries of the button stack that are not
    [undefined]. *)
Definition rendered_buttons (d : DialogElement) : list ButtonElement :=
  omap id (dlg_buttons d).

(** What a button element takes over from its descriptor, and the same
    fields of a descriptor. *)
Definition element_face (e : ButtonElement)
  : SimpleDialogButtonType * string * option string * option string * option Props :=
  (be_type e, be_text e, be_href e, be_target e, be_styles e).

Definition descriptor_face (b : ISimpleDialogButtonProps)
  : SimpleDialogButtonType * string * option string * option string * option Props :=
  (btn_type b, btn_text b, btn_href b, btn_target b, btn_styles b).

Module Scenario.
(** A link button, and a prompt that does not ask for the message as label
    and whose text field props bring an [onChange] of the caller. *)
Definition link : ISimpleDialogButtonProps :=
  {| btn_type := Default; btn_text := "Docs"; btn_styles := None;
     btn_onClick := VUndefined; btn_href := Some "https://example.org/docs";
     btn_target := Some "_blank" |}.

Definition dialog : ISimpleDialogProps :=
  SimpleDialog_with Demo.base [Demo.save; link; Demo.broken].

Definition field_props : Props :=
  <["onChange" := PFun (Extern 2)]> (<["label" := PStr "Name"]> ∅).

Definition plain_prompt : IPromptDialogProps :=
  {| prompt_base := Demo.base; prompt_confirmButtonText := Some "Send";
     prompt_rejectButtonText := Some ""; prompt_textFieldProps := Some field_props;
     prompt_messageAsLabel := Some false; prompt_onClose := O |}.
End Scenario.

(** ** Properties *)

Section Properties.
Context {U : Type}.
Variable ext : ExternFns U.

(** Every function object returns normally. *)
Lemma call_closure_normal (c : Closure) (args : list JsValue) (w : World U) :
  ∃ r w', call_closure ext c args w = (Normal r, w').
Proof.
  destruct c; cbn;
    unfold ConfirmDialog.onConfirm, ConfirmDialog.onReject,
      PromptDialog.onConfirm, PromptDialog.onReject,
      PromptDialog.onValueChanged, call_extern, read_value, write_value,
      mbind, M_bind, mret, M_ret; cbn;
    repeat (match goal with |- context [ext ?f ?a ?u] => destruct (ext f a u) end);
    cbn; eauto.
Qed.

Lemma typeof_function (v : JsValue) :
  String.eqb (typeof v) "function" = true ↔ ∃ c, v = VFunction c.
Proof.
  split.
  - destruct v; cbn; try discriminate. eauto.
  - intros [c ->]. reflexivity.
Qed.

(** One activation, by cases on the click handler. *)
Lemma _onButtonClicked_callable b event state w c r w' :
  btn_onClick b = VFunction c →
  call_closure ext c [event] w = (Normal r, w') →
  SimpleDialog._onButtonClicked ext b event state w =
    (Normal (if truthy r then {| messages := messages state ++ [r] |} else state), w').
Proof.
  intros Hc Hr. unfold SimpleDialog._onButtonClicked.
  rewrite Hc. cbn. unfold mbind, M_bind. rewrite Hr.
  destruct (truthy r); reflexivity.
Qed.

Lemma _onButtonClicked_not_callable b event state w :
  (∀ c, btn_onClick b ≠ VFunction c) →
  SimpleDialog._onButtonClicked ext b event state w = (Normal state, w).
Proof.
  intros Hn. unfold SimpleDialog._onButtonClicked.
  destruct (btn_onClick b) eqn:E; try reflexivity.
  exfalso. eapply Hn. reflexivity.
Qed.

Lemma call_extern_eq f args (w : World U) :
  call_extern ext f args w =
    (Normal (ext f args (user w)).1,
     {| calls := calls w ++ [(f, args)]; console := console w;
        _value := _value w; user := (ext f args (user w)).2 |}).
Proof. unfold call_extern. destruct (ext f args (user w)); reflexivity. Qed.

(** C4.  Activating a button whose click handler is a caller's function
    [f] calls [f] once, with the event as only argument, and appends what
    it returned to the end of the message list exactly when that is
    truthy.  Over a series of activations the list grows by the truthy
    values among the handlers' return values, once each and in call order:
    nothing is merged and nothing is cut off.  A descriptor with a
    callable handler is always rendered, and activating what it rendered
    is this very step. *)
Theorem activation_appends_truthy_results :
  (∀ b event state (w : World U) f,
      btn_onClick b = VFunction (Extern f) →
      SimpleDialog._onButtonClicked ext b event state w =
        (Normal (if truthy (ext f [event] (user w)).1
                 then {| messages := messages state ++ [(ext f [event] (user w)).1] |}
                 else state),
         {| calls := calls w ++ [(f, [event])]; console := console w;
            _value := _value w; user := (ext f [event] (user w)).2 |}))
  ∧ (∀ b c,
      btn_onClick b = VFunction c →
      ∃ e, SimpleDialog.render_button b = Some e
           ∧ ∀ event state (w : World U),
               activate ext e event state w =
                 SimpleDialog._onButtonClicked ext b event state w)
  ∧ (∀ acts state (w : World U),
      activations ext acts state w =
        (Normal {| messages :=
                     messages state ++ List.filter truthy (handler_returns ext acts w).1 |},
         (handler_returns ext acts w).2)).
Proof.
  split; [|split].
  - intros b event state w f Hf.
    erewrite _onButtonClicked_callable; [reflexivity | exact Hf |].
    cbn. apply call_extern_eq.
  - intros b c Hc. unfold SimpleDialog.render_button. rewrite Hc. cbn.
    eexists. split; [reflexivity|]. done.
  - induction acts as [|[b event] rest IH]; intros [msgs] w; cbn.
    + rewrite app_nil_r. reflexivity.
    + unfold mbind, M_bind.
      destruct (btn_onClick b) eqn:Hb;
        try (rewrite _onButtonClicked_not_callable by (rewrite Hb; congruence);
             apply IH).
      destruct (call_closure_normal c [event] w) as (r & w' & Hr).
      rewrite (_onButtonClicked_callable _ _ _ _ _ _ _ Hb Hr), Hr.
      destruct (truthy r) eqn:Ht; rewrite IH;
        destruct (handler_returns ext rest w') as [rs w'']; cbn; rewrite Ht;
        [rewrite <- app_assoc|]; reflexivity.
Qed.
End Properties.

(** ** Dismissing messages *)

Section Dismissal.
Implicit Types (m x : JsValue) (l : list JsValue) (st : ISimpleDialogState).

Lemma dismissed_messages m st :
  messages (SimpleDialog._onMessageDismissed m st) = without m (messages st).
Proof. reflexivity. Qed.

Lemma elem_of_without m l x :
  x ∈ without m l ↔ x ∈ l ∧ strict_eq x m = false.
Proof.
  unfold without. rewrite !list_elem_of_In, filter_In, negb_true_iff.
  reflexivity.
Qed.

Lemma without_sublist m l : without m l `sublist_of` l.
Proof.
  induction l as [|x l IH]; cbn.
  - constructor.
  - destruct (strict_eq x m); cbn; by constructor.
Qed.

Lemma without_id m l :
  (∀ x, x ∈ l → strict_eq x m = false) → without m l = l.
Proof.
  induction l as [|x l IH]; intros H; cbn; [done|].
  rewrite (H x) by constructor. cbn. f_equal. apply IH.
  intros y Hy. apply H. by constructor.
Qed.

Lemma without_app m l1 l2 :
  without m (l1 ++ l2) = without m l1 ++ without m l2.
Proof. apply List.filter_app. Qed.

Lemma without_idemp m l : without m (without m l) = without m l.
Proof.
  apply without_id. intros x Hx. by apply elem_of_without in Hx as [_ ?].
Qed.

(** C5, as the code has it.  Dismissing [m] removes every entry that is
    [===] to [m] (the same message object may be in the list more than
    once) and keeps all other entries in their order.  With no such entry
    nothing changes, so a second dismissal is a no-op; when [m] is in the
    list once, exactly that entry goes; and a message with the same
    fields but another reference stays. *)
Theorem dismissal_removes_equal_entries m st :
  let st' := SimpleDialog._onMessageDismissed m st in
  (∀ x, x ∈ messages st' ↔ x ∈ messages st ∧ strict_eq x m = false)
  ∧ messages st' `sublist_of` messages st
  ∧ ((∀ x, x ∈ messages st → strict_eq x m = false) → st' = st)
  ∧ SimpleDialog._onMessageDismissed m st' = st'
  ∧ (∀ l1 l2,
        messages st = l1 ++ m :: l2 →
        strict_eq m m = true →
        (∀ x, x ∈ l1 ++ l2 → strict_eq x m = false) →
        messages st' = l1 ++ l2)
  ∧ (∀ r1 r2 fields,
        m = VObject r1 fields → r1 ≠ r2 →
        VObject r2 fields ∈ messages st →
        VObject r2 fields ∈ messages st').
Proof.
  destruct st as [l]. unfold SimpleDialog._onMessageDismissed. cbn.
  fold (without m l). fold (without m (without m l)).
  split; [|split; [|split; [|split; [|split]]]].
  - intros x. apply elem_of_without.
  - apply without_sublist.
  - intros H. by rewrite without_id.
  - by rewrite without_idemp.
  - intros l1 l2 -> Hm H. rewrite without_app. cbn. rewrite Hm. cbn.
    fold (without m l2). rewrite <- without_app. by apply without_id.
  - intros r1 r2 fields -> Hne Hin. apply elem_of_without. split; [done|].
    cbn. apply Nat.eqb_neq. congruence.
Qed.

(** Everything that can be in the message list is [===] to itself. *)
Lemma truthy_strict_eq_refl m : truthy m = true → strict_eq m m = true.
Proof.
  destruct m; cbn; try done; intros _.
  - by destruct b.
  - apply Z.eqb_refl.
  - apply String.eqb_refl.
  - by apply bool_decide_eq_true.
  - apply Nat.eqb_refl.
Qed.
End Dismissal.

(** ** The buttons of the variants *)

Section Variants.
Context {U : Type}.
Variable ext : ExternFns U.

Ltac run_click :=
  unfold click, activate, SimpleDialog._onButtonClicked, call_value, call_closure,
    ConfirmDialog.onConfirm, ConfirmDialog.onReject,
    PromptDialog.onConfirm, PromptDialog.onReject, read_value;
  cbn; unfold mbind, M_bind, mret, M_ret; cbn;
  rewrite ?call_extern_eq; cbn.

Lemma str_or_cases (o : option string) (d : string) :
  str_or o d = if str_truthy o then default d o else d.
Proof. destruct o as [s|]; cbn; [|done]. by destruct (String.eqb s ""). Qed.

Lemma AlertDialog_click p event st (w : World U) :
  click ext (AlertDialog.render p) 0 event st w =
    (Normal (if truthy (ext (alert_onClose p) [event] (user w)).1
             then {| messages := messages st ++ [(ext (alert_onClose p) [event] (user w)).1] |}
             else st),
     called ext (alert_onClose p) [event] w).
Proof. run_click. by destruct (truthy _). Qed.

Lemma ConfirmDialog_click_reject p event st (w : World U) :
  click ext (ConfirmDialog.render p) 0 event st w =
    (Normal st, called ext (confirm_onClose p) [VBool false] w).
Proof. by run_click. Qed.

Lemma ConfirmDialog_click_confirm p event st (w : World U) :
  click ext (ConfirmDialog.render p) 1 event st w =
    (Normal st, called ext (confirm_onClose p) [VBool true] w).
Proof. by run_click. Qed.

Lemma PromptDialog_click_reject this p event st (w : World U) :
  click ext (PromptDialog.render this p) 0 event st w =
    (Normal st, called ext (prompt_onClose p) [VNull] w).
Proof. by run_click. Qed.

Lemma PromptDialog_click_confirm this p event st (w : World U) :
  click ext (PromptDialog.render this p) 1 event st w =
    (Normal st,
     called ext (prompt_onClose p) [default VUndefined (_value w !! this)] w).
Proof. by run_click. Qed.

Lemma click_out_of_range props i event st (w : World U) :
  (length (buttons props) ≤ i)%nat →
  click ext props i event st w = (Normal st, w).
Proof.
  intros Hi. unfold click. cbn.
  rewrite lookup_ge_None_2; [done|]. by rewrite length_map.
Qed.
End Variants.

Section VariantClaims.
Context {U : Type}.
Variable ext : ExternFns U.

(** C2, as the code has it.  AlertDialog renders one button, a primary
    one, labelled [buttonText || "Okay"].  A click on it calls [onClose]
    once, and the call receives the click event as its argument, since
    [onClose] itself is the button's click handler. *)
Theorem AlertDialog_click_calls_onClose_with_event
    (p : IAlertDialogProps) (event : JsValue) (st : ISimpleDialogState) (w : World U) :
  shown (SimpleDialog.render (AlertDialog.render p) st) =
    [Some (Primary, str_or (alert_buttonText p) "Okay")]
  ∧ (click ext (AlertDialog.render p) 0 event st w).2 =
      called ext (alert_onClose p) [event] w
  ∧ calls (click ext (AlertDialog.render p) 0 event st w).2 =
      calls w ++ [(alert_onClose p, [event])].
Proof. rewrite AlertDialog_click. by repeat split. Qed.

(** C7.  ConfirmDialog renders two buttons: first the reject button, a
    default one labelled [rejectButtonText || "No"], then the confirm
    button, a primary one labelled [confirmButtonText || "Yes"].  A click
    on reject calls [onClose(false)] once, a click on confirm calls
    [onClose(true)] once, neither changes the message list, and other
    label texts change nothing of this. *)
Theorem ConfirmDialog_buttons_report_boolean
    (p : IConfirmDialogProps) (event : JsValue) (st : ISimpleDialogState) (w : World U) :
  shown (SimpleDialog.render (ConfirmDialog.render p) st) =
    [Some (Default, str_or (confirm_rejectButtonText p) "No");
     Some (Primary, str_or (confirm_confirmButtonText p) "Yes")]
  ∧ click ext (ConfirmDialog.render p) 0 event st w =
      (Normal st, called ext (confirm_onClose p) [VBool false] w)
  ∧ click ext (ConfirmDialog.render p) 1 event st w =
      (Normal st, called ext (confirm_onClose p) [VBool true] w)
  ∧ calls (called ext (confirm_onClose p) [VBool false] w) =
      calls w ++ [(confirm_onClose p, [VBool false])]
  ∧ calls (called ext (confirm_onClose p) [VBool true] w) =
      calls w ++ [(confirm_onClose p, [VBool true])]
  ∧ (∀ confirmText rejectText i,
        click ext (ConfirmDialog.render
                     {| confirm_base := confirm_base p;
                        confirm_confirmButtonText := confirmText;
                        confirm_rejectButtonText := rejectText;
                        confirm_onClose := confirm_onClose p |}) i event st w =
        click ext (ConfirmDialog.render p) i event st w).
Proof.
  rewrite ConfirmDialog_click_reject, ConfirmDialog_click_confirm.
  repeat split.
  intros c r [|[|i]].
  - by rewrite !ConfirmDialog_click_reject.
  - by rewrite !ConfirmDialog_click_confirm.
  - by rewrite !click_out_of_range by (cbn; lia).
Qed.

(** C10.  When the [onClose] of an AlertDialog returns a truthy value on
    a click, that value is appended to the message list of the
    SimpleDialog and rendered as the last message bar, whose dismissal
    removes it again.  Clicks on the buttons of a ConfirmDialog or a
    PromptDialog leave the message list as it was, whatever their
    [onClose] returns. *)
Theorem AlertDialog_keeps_onClose_result_others_discard :
  (∀ (p : IAlertDialogProps) event st (w : World U),
      let r := (ext (alert_onClose p) [event] (user w)).1 in
      truthy r = true →
      ∃ st',
        (click ext (AlertDialog.render p) 0 event st w).1 = Normal st'
        ∧ messages st' = messages st ++ [r]
        ∧ dlg_messageBars (SimpleDialog.render (AlertDialog.render p) st') =
            dlg_messageBars (SimpleDialog.render (AlertDialog.render p) st)
            ++ [SimpleDialog.render_message_bar r]
        ∧ mb_onDismiss (SimpleDialog.render_message_bar r) = r
        ∧ r ∉ messages (dismiss (SimpleDialog.render_message_bar r) st'))
  ∧ (∀ (p : IConfirmDialogProps) i event st (w : World U),
      (click ext (ConfirmDialog.render p) i event st w).1 = Normal st)
  ∧ (∀ this (p : IPromptDialogProps) i event st (w : World U),
      (click ext (PromptDialog.render this p) i event st w).1 = Normal st).
Proof.
  split; [|split].
  - intros p event st w r Ht. pose proof (truthy_strict_eq_refl r Ht) as Hr.
    rewrite AlertDialog_click. fold r. rewrite Ht.
    eexists. split; [reflexivity|]. cbn. split; [done|].
    split; [by rewrite map_app|]. split; [done|].
    intros Hin. apply (elem_of_without r) in Hin as [_ Hne]. congruence.
  - intros p [|[|i]] event st w.
    + by rewrite ConfirmDialog_click_reject.
    + by rewrite ConfirmDialog_click_confirm.
    + by rewrite click_out_of_range by (cbn; lia).
  - intros this p [|[|i]] event st w.
    + by rewrite PromptDialog_click_reject.
    + by rewrite PromptDialog_click_confirm.
    + by rewrite click_out_of_range by (cbn; lia).
Qed.
End VariantClaims.

(** ** PromptDialog *)

Section PromptClaims.
Context {U : Type}.
Variable ext : ExternFns U.

Lemma prompt_field_rendered this p st :
  prompt_field (dlg_message (SimpleDialog.render (PromptDialog.render this p) st)) =
    Some (prompt_text_field this p).
Proof.
  cbn. unfold PromptDialog.renderMessage.
  by destruct (default false (prompt_messageAsLabel p) && _).
Qed.

Lemma prompt_change this p event newValue (w : World U) :
  change ext (prompt_text_field this p) event newValue w =
    (Normal VUndefined,
     {| calls := calls w; console := console w;
        _value := <[this := newValue]> (_value w); user := user w |}).
Proof. unfold change, prompt_text_field. by rewrite lookup_insert_eq. Qed.

Lemma last_cons_default {A} (x d : A) (l : list A) :
  List.last (x :: l) d = List.last l x.
Proof.
  revert x d. induction l as [|y l IH]; intros x d; [done|].
  change (List.last (y :: l) d = List.last (y :: l) x). by rewrite !IH.
Qed.

(** Typing touches nothing but [_value], which ends up holding the last
    value delivered. *)
Lemma prompt_typing_world this p st inputs (w : World U) d :
  _value w !! this = Some d →
  ∃ w', prompt_typing ext this p st inputs w = (Normal tt, w')
        ∧ calls w' = calls w ∧ console w' = console w ∧ user w' = user w
        ∧ _value w' !! this = Some (List.last (map snd inputs) d).
Proof.
  revert w d. induction inputs as [|[event v] rest IH]; intros w d Hd.
  - by exists w.
  - cbn [prompt_typing]. rewrite prompt_field_rendered.
    unfold mbind, M_bind. rewrite prompt_change.
    match goal with
    | |- context [prompt_typing _ _ _ _ _ ?w1] =>
        destruct (IH w1 v) as (w' & -> & ? & ? & ? & Hv);
          [cbn; apply lookup_insert_eq|]
    end.
    exists w'. repeat split; try done.
    rewrite Hv. f_equal. cbn [map snd]. symmetry. apply last_cons_default.
Qed.

Lemma prompt_constructor_world this p (w : World U) :
  PromptDialog.constructor this p w =
    (Normal tt,
     {| calls := calls w;
        console := console w ++
          (if default false (prompt_messageAsLabel p)
              && p_truthy (opt_get (prompt_textFieldProps p) "label")
           then [PromptDialog.warning] else []);
        _value := <[this := VString ""]> (_value w);
        user := user w |}).
Proof.
  unfold PromptDialog.constructor, write_value, console_warn, mbind, M_bind.
  destruct (default false (prompt_messageAsLabel p) && _); cbn; [done|].
  by rewrite app_nil_r.
Qed.

Lemma prompt_lifecycle_world this p updates (w : World U) :
  prompt_lifecycle this p updates w =
    (Normal (map (PromptDialog.render this) (p :: updates)),
     (PromptDialog.constructor this p w).2).
Proof.
  unfold prompt_lifecycle, mbind, M_bind. by rewrite prompt_constructor_world.
Qed.

(** C1, what the code does.  After mounting and any editing of the text
    field, a click on confirm calls [onClose] once with the uncommitted
    value: the string [''] when no change event came, else the value the
    last change event delivered.  A click on reject calls [onClose] once,
    and the argument it passes is [null], which is not [undefined]. *)
Theorem PromptDialog_confirm_value_reject_null
    (this : nat) (p : IPromptDialogProps) (inputs : list (JsValue * JsValue))
    (event : JsValue) (w : World U) :
  ∃ st w1,
    (st ← prompt_mount this p; prompt_typing ext this p st inputs;; mret st) w
      = (Normal st, w1)
    ∧ calls w1 = calls w
    ∧ click ext (PromptDialog.render this p) 1 event st w1 =
        (Normal st,
         called ext (prompt_onClose p) [List.last (map snd inputs) (VString "")] w1)
    ∧ click ext (PromptDialog.render this p) 0 event st w1 =
        (Normal st, called ext (prompt_onClose p) [VNull] w1)
    ∧ calls (called ext (prompt_onClose p) [VNull] w1) =
        calls w ++ [(prompt_onClose p, [VNull])]
    ∧ strict_eq VNull VUndefined = false.
Proof.
  unfold prompt_mount, mbind, M_bind. rewrite prompt_constructor_world. cbn [mret M_ret].
  match goal with
  | |- context [prompt_typing _ _ _ ?st _ ?w0] =>
      destruct (prompt_typing_world this p st inputs w0 (VString ""))
        as (w1 & -> & Hc & _ & _ & Hv); [apply lookup_insert_eq|];
      exists st, w1
  end.
  rewrite PromptDialog_click_confirm, PromptDialog_click_reject, Hv.
  cbn. rewrite Hc. by repeat split.
Qed.

(** C9.  A text-field label counts as supplied when [textFieldProps.label]
    is truthy.  With [messageAsLabel] set and no label supplied, the
    message and the text field are rendered inside one [Label] and nothing
    is printed.  With [messageAsLabel] set and a label supplied, the
    constructor prints the warning once, re-rendering with any later props
    prints nothing more, and the message and the field are rendered
    unwrapped, the field carrying the caller's label. *)
Theorem PromptDialog_messageAsLabel
    (this : nat) (p : IPromptDialogProps) (w : World U) :
  prompt_messageAsLabel p = Some true →
  let label := opt_get (prompt_textFieldProps p) "label" in
  let content :=
    EFragment [message (prompt_base p); ETextField (prompt_text_field this p)] in
  (p_truthy label = false →
     PromptDialog.renderMessage this p = ELabel [content]
     ∧ ∀ updates, console (prompt_lifecycle this p updates w).2 = console w)
  ∧ (p_truthy label = true →
     PromptDialog.renderMessage this p = content
     ∧ default PUndefined (prompt_text_field this p !! "label") = label
     ∧ ∀ updates,
         (prompt_lifecycle this p updates w).1 =
           Normal (map (PromptDialog.render this) (p :: updates))
         ∧ console (prompt_lifecycle this p updates w).2 =
             console w ++ [PromptDialog.warning]).
Proof.
  intros Hm label content.
  split; intros Hl.
  - split.
    + unfold PromptDialog.renderMessage. fold label. by rewrite Hm, Hl.
    + intros updates. rewrite prompt_lifecycle_world, prompt_constructor_world.
      fold label. rewrite Hm, Hl. cbn. by rewrite app_nil_r.
  - split; [|split].
    + unfold PromptDialog.renderMessage. fold label. by rewrite Hm, Hl.
    + unfold prompt_text_field, label, opt_get, spread.
      rewrite lookup_insert_ne by done.
      destruct (prompt_textFieldProps p); [done|].
      cbn. by rewrite lookup_empty.
    + intros updates. rewrite prompt_lifecycle_world, prompt_constructor_world.
      fold label. rewrite Hm, Hl. by split.
Qed.

(** The check is made at construction only: props that come later with
    both [messageAsLabel] and a label print no warning. *)
Lemma prompt_update_never_warns this p updates (w : World U) :
  console (prompt_lifecycle this p updates w).2 =
    console (prompt_lifecycle this p [] w).2.
Proof. by rewrite !prompt_lifecycle_world. Qed.
End PromptClaims.

(** ** The configuration handed to the Fluent UI dialog *)

Section Configuration.
Implicit Types (props : ISimpleDialogProps) (st : ISimpleDialogState).

Lemma lookup_assign (target source : Props) (k : string) :
  assign target source !! k =
    match source !! k with
    | Some v => Some v
    | None => target !! k
    end.
Proof.
  unfold assign. destruct (source !! k) eqn:E.
  - by apply lookup_union_Some_l.
  - by rewrite lookup_union_r.
Qed.

(** C6, as the code has it.  The merge is a spread of the caller's object
    over the defaults, one level deep.  In the content props and in the
    modal props a property of the caller's object wins, whatever its
    value, and any other property keeps the default ([type] normal,
    [showCloseButton] false, [isBlocking] true, [styles] with the two
    widths of 450).  [hidden] is always false, and [dialogContentProps]
    and [modalProps] are always the merged objects, whatever [dialogProps]
    holds; the properties of [dialogProps] other than these, [children],
    [key] and [ref] pass through.  The title is always [title || ''],
    whatever the content props of the caller say. *)
Theorem SimpleDialog_configuration_merge props st :
  let base := simple_base props in
  let final := dlg_props (SimpleDialog.render props st) in
  final !! "hidden" = Some (PBool false)
  ∧ final !! "dialogContentProps" = Some (PObj (SimpleDialog.render_dialogContentProps props))
  ∧ final !! "modalProps" = Some (PObj (SimpleDialog.render_modalProps props))
  ∧ (∀ k, k ≠ "hidden" → k ≠ "dialogContentProps" → k ≠ "modalProps" →
          k ≠ "children" → k ≠ "key" → k ≠ "ref" →
          final !! k = spread (dialogProps base) !! k)
  ∧ SimpleDialog.render_dialogContentProps props !! "title" =
      Some (PStr (str_or (title base) ""))
  ∧ (∀ k, k ≠ "title" →
          SimpleDialog.render_dialogContentProps props !! k =
            match spread (dialogContentProps base) !! k with
            | Some v => Some v
            | None => SimpleDialog.content_defaults !! k
            end)
  ∧ (∀ k, SimpleDialog.render_modalProps props !! k =
            match spread (modalProps base) !! k with
            | Some v => Some v
            | None => SimpleDialog.modal_defaults !! k
            end)
  ∧ (SimpleDialog.content_defaults !! "type" = Some DialogType_normal
     ∧ SimpleDialog.content_defaults !! "showCloseButton" = Some (PBool false)
     ∧ SimpleDialog.modal_defaults !! "isBlocking" = Some (PBool true)
     ∧ lookup_path ["styles"; "main"; "minWidth"] (PObj SimpleDialog.modal_defaults)
         = Some (PNum 450)
     ∧ lookup_path ["styles"; "main"; "maxWidth"] (PObj SimpleDialog.modal_defaults)
         = Some (PNum 450)).
Proof.
  cbn zeta. unfold SimpleDialog.render, SimpleDialog.render_dialog_props,
    SimpleDialog.render_dialogContentProps, SimpleDialog.render_modalProps.
  cbn [dlg_props].
  split; [by simplify_map_eq|].
  split; [by simplify_map_eq|].
  split; [by simplify_map_eq|].
  split; [intros k ??????; by simplify_map_eq|].
  split; [by simplify_map_eq|].
  split; [intros k ?; rewrite lookup_insert_ne by done; apply lookup_assign|].
  split; [intros k; apply lookup_assign|].
  repeat split; by vm_compute.
Qed.
End Configuration.

(** ** Rendering the buttons *)

Section Buttons.
Context {U : Type}.
Variable ext : ExternFns U.

Lemma not_callable_typeof (v : JsValue) :
  (∀ c, v ≠ VFunction c) → String.eqb (typeof v) "function" = false.
Proof. destruct v; try done. intros H. by destruct (H c). Qed.

(** C8, as the code has it.  A descriptor renders nothing exactly when
    its click handler and its [href] are both falsy, so in particular when
    neither is set.  A click handler that is not a function is never
    called: activating the button returns normally and changes neither the
    message list nor the world.  Such a handler is not taken for absent
    when the buttons are rendered: if it is truthy the button is rendered,
    with the click handler attached. *)
Theorem button_rendered_iff_handler_or_href_truthy :
  (∀ b, SimpleDialog.render_button b = None ↔
          truthy (btn_onClick b) = false ∧ str_truthy (btn_href b) = false)
  ∧ (∀ b, btn_onClick b = VUndefined → btn_href b = None →
          SimpleDialog.render_button b = None)
  ∧ (∀ b event st (w : World U),
        (∀ c, btn_onClick b ≠ VFunction c) →
        SimpleDialog._onButtonClicked ext b event st w = (Normal st, w))
  ∧ (∀ b, (∀ c, btn_onClick b ≠ VFunction c) →
          truthy (btn_onClick b) = true →
          ∃ e, SimpleDialog.render_button b = Some e
               ∧ be_onClick e = Some b
               ∧ ∀ event st (w : World U), activate ext e event st w = (Normal st, w)).
Proof.
  split; [|split; [|split]].
  - intros b. unfold SimpleDialog.render_button.
    destruct (truthy (btn_onClick b)), (str_truthy (btn_href b)); cbn;
      (split; [intros ?|intros [??]]; done).
  - intros b Hc Hh. unfold SimpleDialog.render_button. by rewrite Hc, Hh.
  - intros b event st w Hn. by apply _onButtonClicked_not_callable.
  - intros b Hn Ht. unfold SimpleDialog.render_button. rewrite Ht. cbn.
    eexists. split; [done|]. split; [done|].
    intros event st w. unfold activate. cbn.
    by apply _onButtonClicked_not_callable.
Qed.
End Buttons.

(** ** The props the variants hand on *)

(** C3, what the code does.  The three variants build their SimpleDialog
    from the title, the message and the buttons alone, so the final
    configuration is the one of a SimpleDialog given no [dialogProps],
    [dialogContentProps] or [modalProps].  An AlertDialog given
    [modalProps = { isBlocking: false }] is still blocking, where a
    SimpleDialog given the same is not. *)
Theorem variants_drop_passthrough_props :
  (∀ p st, dlg_props (SimpleDialog.render (AlertDialog.render p) st) =
             dlg_props (SimpleDialog.render
                          (SimpleDialog_element (title (alert_base p))
                             (message (alert_base p)) []) st))
  ∧ (∀ p st, dlg_props (SimpleDialog.render (ConfirmDialog.render p) st) =
               dlg_props (SimpleDialog.render
                            (SimpleDialog_element (title (confirm_base p))
                               (message (confirm_base p)) []) st))
  ∧ (∀ this p st, dlg_props (SimpleDialog.render (PromptDialog.render this p) st) =
                    dlg_props (SimpleDialog.render
                                 (SimpleDialog_element (title (prompt_base p))
                                    (message (prompt_base p)) []) st))
  ∧ (let base := {| title := Some "Hi!"; message := EText "Hello World!";
                    dialogProps := None; dialogContentProps := None;
                    modalProps := Some (<["isBlocking" := PBool false]> ∅) |} in
     let alert := {| alert_base := base; alert_buttonText := None; alert_onClose := O |} in
     lookup_path ["modalProps"; "isBlocking"]
       (PObj (dlg_props (SimpleDialog.render (AlertDialog.render alert) Demo.empty)))
       = Some (PBool true)
     ∧ lookup_path ["modalProps"; "isBlocking"]
         (PObj (dlg_props (SimpleDialog.render
                             (SimpleDialog_with base (buttons (AlertDialog.render alert)))
                             Demo.empty)))
         = Some (PBool false)).
Proof.
  split; [done|]. split; [done|]. split; [done|].
  split; by vm_compute.
Qed.

(** ** The components at work in the small application *)

Lemma activation_appends_truthy_results_witness :
  btn_onClick Demo.save = VFunction (Extern 1)
  ∧ SimpleDialog._onButtonClicked Demo.ext Demo.save Demo.event Demo.empty Demo.world =
      (Normal {| messages := [Demo.saved] |},
       {| calls := [(1%nat, [Demo.event])]; console := []; _value := ∅; user := 1%nat |})
  ∧ ∃ e, SimpleDialog.render_button Demo.save = Some e
         ∧ activate Demo.ext e Demo.event Demo.empty Demo.world =
             SimpleDialog._onButtonClicked Demo.ext Demo.save Demo.event
               Demo.empty Demo.world.
Proof.
  split; [reflexivity|]. split.
  - exact (proj1 (activation_appends_truthy_results Demo.ext)
             Demo.save Demo.event Demo.empty Demo.world 1%nat eq_refl).
  - destruct (proj1 (proj2 (activation_appends_truthy_results Demo.ext))
                Demo.save (Extern 1) eq_refl) as (e & He & Hact).
    exists e. split; [exact He | apply Hact].
Defined.

(** Two clicks on a button whose handler returns the same message object put
    that object in the list twice; dismissing it empties the list, where
    removing the first entry alone would leave one. *)
Lemma dismissal_removes_first_only_counterexample :
  let st := {| messages := [Demo.saved; Demo.saved] |} in
  (activations Demo.ext [(Demo.save, Demo.event); (Demo.save, Demo.event)]
     Demo.empty Demo.world).1 = Normal st
  ∧ messages (SimpleDialog._onMessageDismissed Demo.saved st) = []
  ∧ remove_first_equal Demo.saved (messages st) = [Demo.saved]
  ∧ messages (SimpleDialog._onMessageDismissed Demo.saved st)
      ≠ remove_first_equal Demo.saved (messages st).
Proof. cbn zeta. repeat split; try reflexivity. discriminate. Qed.

Lemma dismissal_removes_equal_entries_witness :
  let st := {| messages := [VString "a"; Demo.saved; VObject 2 ∅; VObject 3 ∅] |} in
  messages (SimpleDialog._onMessageDismissed Demo.saved st)
    = [VString "a"; VObject 2 ∅; VObject 3 ∅]
  ∧ SimpleDialog._onMessageDismissed (VString "b") st = st
  ∧ VObject 3 ∅ ∈ messages (SimpleDialog._onMessageDismissed (VObject 2 ∅) st).
Proof.
  cbn zeta.
  set (st := {| messages := [VString "a"; Demo.saved; VObject 2 ∅; VObject 3 ∅] |}).
  split; [|split].
  - apply (proj1 (proj2 (proj2 (proj2 (proj2
             (dismissal_removes_equal_entries Demo.saved st)))))
             [VString "a"] [VObject 2 ∅; VObject 3 ∅]).
    + reflexivity.
    + reflexivity.
    + intros x Hx. apply list_elem_of_In in Hx.
      destruct Hx as [<-|[<-|[<-|[]]]]; reflexivity.
  - apply (proj1 (proj2 (proj2 (dismissal_removes_equal_entries (VString "b") st)))).
    intros x Hx. apply list_elem_of_In in Hx.
    destruct Hx as [<-|[<-|[<-|[<-|[]]]]]; reflexivity.
  - apply (proj2 (proj2 (proj2 (proj2 (proj2
             (dismissal_removes_equal_entries (VObject 2 ∅) st)))))
             2%nat 3%nat ∅).
    + reflexivity.
    + discriminate.
    + apply list_elem_of_In. cbn. tauto.
Defined.

(** A click on the button of an AlertDialog: the one call of [onClose] has
    the click event as argument, not an empty argument list. *)
Lemma AlertDialog_onClose_without_arguments_counterexample :
  calls (click Demo.ext (AlertDialog.render (Demo.alert 0)) 0 Demo.event
           Demo.empty Demo.world).2
    = [(O, [Demo.event])]
  ∧ calls (click Demo.ext (AlertDialog.render (Demo.alert 0)) 0 Demo.event
             Demo.empty Demo.world).2
      ≠ calls Demo.world ++ [(alert_onClose (Demo.alert 0), [])].
Proof. split; [reflexivity|]. cbn. discriminate. Qed.

(** A caller that passes [modalProps = { styles: {} }] never mentions
    [minWidth], and the final configuration has no [minWidth] left. *)
Lemma SimpleDialog_default_width_unset_counterexample :
  let props := Demo.configured None None (Some (<["styles" := PObj ∅]> ∅)) in
  lookup_path ["modalProps"; "styles"] (PObj (SimpleDialog.render_dialog_props props))
    = Some (PObj ∅)
  ∧ ¬ default_kept_or_overridden props
        ["modalProps"; "styles"; "main"; "minWidth"] (PNum 450).
Proof.
  cbn zeta. split; [by vm_compute|].
  intros (v & Hv & _). vm_compute in Hv. discriminate.
Qed.

Lemma SimpleDialog_configuration_merge_witness :
  let props :=
    Demo.configured (Some (<["hidden" := PBool true]> (<["className" := PStr "wide"]> ∅)))
      (Some (<["title" := PStr "Other"]> (<["showCloseButton" := PBool true]> ∅)))
      None in
  dlg_props (SimpleDialog.render props Demo.empty) !! "className" = Some (PStr "wide")
  ∧ dlg_props (SimpleDialog.render props Demo.empty) !! "hidden" = Some (PBool false)
  ∧ SimpleDialog.render_dialogContentProps props !! "showCloseButton" = Some (PBool true)
  ∧ SimpleDialog.render_dialogContentProps props !! "type" = Some DialogType_normal
  ∧ SimpleDialog.render_dialogContentProps props !! "title" = Some (PStr "").
Proof.
  cbn zeta.
  set (props := Demo.configured _ _ _).
  pose proof (SimpleDialog_configuration_merge props Demo.empty)
    as (Hhidden & _ & _ & Hpass & Htitle & Hcontent & _).
  split; [|split; [|split; [|split]]].
  - rewrite (Hpass "className") by discriminate. by vm_compute.
  - exact Hhidden.
  - rewrite (Hcontent "showCloseButton") by discriminate. by vm_compute.
  - rewrite (Hcontent "type") by discriminate. by vm_compute.
  - exact Htitle.
Defined.

(** A descriptor whose click handler is a string and that has no [href] is
    rendered, where the same descriptor without a click handler is not. *)
Lemma not_callable_handler_as_absent_counterexample :
  (∀ c, btn_onClick Demo.broken ≠ VFunction c)
  ∧ SimpleDialog.render_button (without_onClick Demo.broken) = None
  ∧ SimpleDialog.render_button Demo.broken ≠
      SimpleDialog.render_button (without_onClick Demo.broken).
Proof. split; [discriminate|]. split; [reflexivity|]. discriminate. Qed.

Lemma button_rendered_iff_handler_or_href_truthy_witness :
  SimpleDialog.render_button (without_onClick Demo.broken) = None
  ∧ SimpleDialog._onButtonClicked Demo.ext Demo.broken Demo.event Demo.empty Demo.world
      = (Normal Demo.empty, Demo.world)
  ∧ ∃ e, SimpleDialog.render_button Demo.broken = Some e
         ∧ be_onClick e = Some Demo.broken
         ∧ activate Demo.ext e Demo.event Demo.empty Demo.world
             = (Normal Demo.empty, Demo.world).
Proof.
  pose proof (button_rendered_iff_handler_or_href_truthy Demo.ext)
    as (_ & Hneither & Hclick & Hrendered).
  split; [|split].
  - apply Hneither; reflexivity.
  - apply Hclick. discriminate.
  - destruct (Hrendered Demo.broken) as (e & He & Hb & Hact);
      [discriminate | reflexivity |].
    exists e. split; [exact He|]. split; [exact Hb|]. apply Hact.
Defined.

Lemma PromptDialog_messageAsLabel_witness :
  PromptDialog.renderMessage 0 (Demo.prompt None) =
    ELabel [EFragment [EText "What is your name?";
                       ETextField (prompt_text_field 0 (Demo.prompt None))]]
  ∧ PromptDialog.renderMessage 0 (Demo.prompt Demo.labelled) =
      EFragment [EText "What is your name?";
                 ETextField (prompt_text_field 0 (Demo.prompt Demo.labelled))]
  ∧ console (prompt_lifecycle 0 (Demo.prompt Demo.labelled)
               [Demo.prompt Demo.labelled; Demo.prompt None] Demo.world).2
      = [PromptDialog.warning].
Proof.
  split; [|split].
  - apply (proj1 (PromptDialog_messageAsLabel 0 (Demo.prompt None) Demo.world eq_refl)).
    reflexivity.
  - apply (proj2 (PromptDialog_messageAsLabel 0 (Demo.prompt Demo.labelled)
                    Demo.world eq_refl)).
    by vm_compute.
  - apply (proj2 (PromptDialog_messageAsLabel 0 (Demo.prompt Demo.labelled)
                    Demo.world eq_refl)).
    by vm_compute.
Defined.

(** The prompt of the README: untouched, confirm reports ['']; after typing
    "Ada", confirm reports ["Ada"] and reject reports [null]. *)
Example PromptDialog_confirm_untouched :
  calls ((st ← prompt_mount 0 (Demo.prompt None);
          click Demo.ext (PromptDialog.render 0 (Demo.prompt None)) 1 Demo.event st)
           Demo.world).2
    = [(O, [VString ""])].
Proof. reflexivity. Qed.

Example PromptDialog_confirm_after_typing :
  calls ((st ← prompt_mount 0 (Demo.prompt None);
          prompt_typing Demo.ext 0 (Demo.prompt None) st
            [(Demo.event, VString "A"); (Demo.event, VString "Ad");
             (Demo.event, VString "Ada")];;
          click Demo.ext (PromptDialog.render 0 (Demo.prompt None)) 1 Demo.event st)
           Demo.world).2
    = [(O, [VString "Ada"])].
Proof. by vm_compute. Qed.

Example PromptDialog_reject_after_typing :
  calls ((st ← prompt_mount 0 (Demo.prompt None);
          prompt_typing Demo.ext 0 (Demo.prompt None) st [(Demo.event, VString "Ada")];;
          click Demo.ext (PromptDialog.render 0 (Demo.prompt None)) 0 Demo.event st)
           Demo.world).2
    = [(O, [VNull])].
Proof. by vm_compute. Qed.

Lemma AlertDialog_keeps_onClose_result_others_discard_witness :
  truthy (Demo.ext 1 [Demo.event] (user Demo.world)).1 = true
  ∧ ∃ st',
      (click Demo.ext (AlertDialog.render (Demo.alert 1)) 0 Demo.event
         Demo.empty Demo.world).1 = Normal st'
      ∧ messages st' = [Demo.saved].
Proof.
  split; [reflexivity|].
  destruct (proj1 (AlertDialog_keeps_onClose_result_others_discard Demo.ext)
              (Demo.alert 1) Demo.event Demo.empty Demo.world eq_refl)
    as (st' & Hclick & Hmessages & _).
  exists st'. split; [exact Hclick | exact Hmessages].
Defined.

(** ** Further properties of SimpleDialog *)

Section Sessions.
Context {U : Type}.
Variable ext : ExternFns U.

Lemma call_closure_console (c : Closure) (args : list JsValue) (w : World U) :
  console (call_closure ext c args w).2 = console w.
Proof.
  destruct c; cbn;
    unfold ConfirmDialog.onConfirm, ConfirmDialog.onReject,
      PromptDialog.onConfirm, PromptDialog.onReject,
      PromptDialog.onValueChanged, read_value, write_value,
      mbind, M_bind, mret, M_ret; cbn;
    rewrite ?call_extern_eq; reflexivity.
Qed.

(** One activation returns normally, prints nothing, and leaves the list as
    it was or with one truthy value more at its end. *)
Lemma _onButtonClicked_step b event st (w : World U) :
  ∃ st' w',
    SimpleDialog._onButtonClicked ext b event st w = (Normal st', w')
    ∧ console w' = console w
    ∧ (st' = st ∨ ∃ r, truthy r = true ∧ messages st' = messages st ++ [r]).
Proof.
  destruct (btn_onClick b) eqn:Hb;
    try (rewrite _onButtonClicked_not_callable by (rewrite Hb; congruence);
         exists st, w; by auto).
  pose proof (call_closure_console c [event] w) as Hcon.
  destruct (call_closure_normal ext c [event] w) as (r & w' & Hr).
  rewrite Hr in Hcon. rewrite (_onButtonClicked_callable ext _ _ _ _ _ _ _ Hb Hr).
  destruct (truthy r) eqn:Ht; eexists _, w'; (split; [reflexivity|]); split; auto.
  right. by exists r.
Qed.

Lemma click_step props i event st (w : World U) :
  ∃ st' w',
    click ext props i event st w = (Normal st', w')
    ∧ console w' = console w
    ∧ (st' = st ∨ ∃ r, truthy r = true ∧ messages st' = messages st ++ [r]).
Proof.
  unfold click.
  destruct (dlg_buttons (SimpleDialog.render props st) !! i) as [[e|]|];
    try (exists st, w; by auto).
  unfold activate. destruct (be_onClick e) as [b|]; [|exists st, w; by auto].
  apply _onButtonClicked_step.
Qed.

Lemma without_Forall (P : JsValue → Prop) m l : Forall P l → Forall P (without m l).
Proof.
  intros H. apply Forall_forall. intros x [Hx _]%elem_of_without.
  by eapply Forall_forall in H.
Qed.

Lemma without_length m l : (length (without m l) ≤ length l)%nat.
Proof. apply List.filter_length_le. Qed.

Lemma handle_step props e st (w : World U) :
  Forall (λ m, truthy m = true) (messages st) →
  ∃ st' w',
    handle ext props e st w = (Normal st', w')
    ∧ console w' = console w
    ∧ Forall (λ m, truthy m = true) (messages st')
    ∧ (length (messages st') ≤ length (messages st) + (if is_click e then 1 else 0))%nat.
Proof.
  intros Hinv. destruct e as [i event|j]; cbn [handle is_click].
  - destruct (click_step props i event st w) as (st' & w' & -> & Hcon & Hst).
    exists st', w'. split; [done|]. split; [done|].
    destruct Hst as [->|(r & Hr & Hm)]; [split; [done|lia]|].
    rewrite Hm. split.
    + apply Forall_app. split; [done|]. by constructor.
    + rewrite length_app. cbn. lia.
  - destruct (dlg_messageBars (SimpleDialog.render props st) !! j) as [bar|];
      eexists _, w; (split; [reflexivity|]); repeat split; try done; try lia.
    + unfold dismiss. rewrite dismissed_messages. by apply without_Forall.
    + unfold dismiss. rewrite dismissed_messages.
      pose proof (without_length (mb_onDismiss bar) (messages st)). lia.
Qed.

Lemma session_invariant props events st (w : World U) :
  Forall (λ m, truthy m = true) (messages st) →
  ∃ st' w',
    session ext props events st w = (Normal st', w')
    ∧ console w' = console w
    ∧ Forall (λ m, truthy m = true) (messages st')
    ∧ (length (messages st') ≤ length (messages st) + length (List.filter is_click events))%nat.
Proof.
  revert st w. induction events as [|e rest IH]; intros st w Hinv.
  - exists st, w. cbn. repeat split; try done. lia.
  - cbn [session]. unfold mbind, M_bind.
    destruct (handle_step props e st w Hinv) as (st1 & w1 & -> & Hc1 & Hi1 & Hl1).
    destruct (IH st1 w1 Hi1) as (st' & w' & -> & Hc & Hi & Hl).
    exists st', w'. repeat split; try done; [congruence|].
    cbn [List.filter]. destruct (is_click e); cbn [length]; lia.
Qed.

(** X1.  Whatever the user does with a mounted SimpleDialog, the state
    it is left in holds truthy messages only, and never more of them than
    buttons were clicked. *)
Theorem SimpleDialog_session_invariant
    (props : ISimpleDialogProps) (events : list UserEvent) (w : World U)
    (st : ISimpleDialogState) :
  (mounted ext props events w).1 = Normal st →
  Forall (λ m, truthy m = true) (messages st)
  ∧ (length (messages st) ≤ length (List.filter is_click events))%nat.
Proof.
  intros Hrun. unfold mounted in Hrun.
  destruct (session_invariant props events (SimpleDialog.constructor props) w)
    as (st' & w' & Hs & _ & Hi & Hl); [constructor|].
  rewrite Hs in Hrun. injection Hrun as ->. by split.
Qed.

(** X2.  In every state the user can reach, dismissing a message bar that
    is on screen removes its message: the list gets shorter and no longer
    holds that message. *)
Theorem SimpleDialog_dismiss_shortens
    (props : ISimpleDialogProps) (events : list UserEvent) (w : World U)
    (st : ISimpleDialogState) (bar : MessageBarElement) :
  (mounted ext props events w).1 = Normal st →
  bar ∈ dlg_messageBars (SimpleDialog.render props st) →
  (length (messages (dismiss bar st)) < length (messages st))%nat
  ∧ mb_onDismiss bar ∉ messages (dismiss bar st).
Proof.
  intros Hrun Hbar. unfold mounted in Hrun.
  destruct (session_invariant props events (SimpleDialog.constructor props) w)
    as (st' & w' & Hs & _ & Hi & _); [constructor|].
  rewrite Hs in Hrun. injection Hrun as ->.
  cbn in Hbar. apply list_elem_of_fmap in Hbar as (m & -> & Hm).
  cbn [mb_onDismiss SimpleDialog.render_message_bar].
  assert (strict_eq m m = true) as Hmm.
  { apply truthy_strict_eq_refl. by eapply Forall_forall in Hi. }
  unfold dismiss. cbn [mb_onDismiss SimpleDialog.render_message_bar].
  rewrite dismissed_messages. split.
  - apply list_elem_of_In, in_split in Hm as (l1 & l2 & ->).
    rewrite without_app. cbn [without List.filter]. rewrite Hmm. cbn [negb].
    rewrite !length_app. cbn [length].
    pose proof (without_length m l1). pose proof (without_length m l2).
    unfold without in *. lia.
  - intros [_ Hne]%elem_of_without. congruence.
Qed.
End Sessions.

Section Rendering.
Context {U : Type}.
Variable ext : ExternFns U.

Lemma map_without (f : JsValue → MessageBarElement) m l :
  (∀ x, mb_onDismiss (f x) = x) →
  map f (without m l) =
    List.filter (λ bar, negb (strict_eq (mb_onDismiss bar) m)) (map f l).
Proof.
  intros Hf. induction l as [|x l IH]; [done|].
  cbn. rewrite Hf. destruct (strict_eq x m); cbn; by rewrite <- IH.
Qed.

(** X3.  The message bars are the messages, one bar each and in the order
    of the list, each bar dismissing its own message.  Dismissing a bar
    takes away the bars of the messages [===] to its message and leaves
    the other bars, the buttons, the body and the configuration as they
    were. *)
Theorem SimpleDialog_bars_follow_messages
    (props : ISimpleDialogProps) (st : ISimpleDialogState) (bar : MessageBarElement) :
  map mb_onDismiss (dlg_messageBars (SimpleDialog.render props st)) = messages st
  ∧ dlg_messageBars (SimpleDialog.render props (SimpleDialog.constructor props)) = []
  ∧ dlg_messageBars (SimpleDialog.render props (dismiss bar st)) =
      List.filter (λ other, negb (strict_eq (mb_onDismiss other) (mb_onDismiss bar)))
        (dlg_messageBars (SimpleDialog.render props st))
  ∧ dlg_buttons (SimpleDialog.render props (dismiss bar st)) =
      dlg_buttons (SimpleDialog.render props st)
  ∧ dlg_message (SimpleDialog.render props (dismiss bar st)) =
      dlg_message (SimpleDialog.render props st)
  ∧ dlg_props (SimpleDialog.render props (dismiss bar st)) =
      dlg_props (SimpleDialog.render props st).
Proof.
  split; [|split; [done|split; [|done]]].
  - cbn. rewrite map_map. cbn. apply map_id.
  - cbn [SimpleDialog.render dlg_messageBars]. unfold dismiss.
    rewrite dismissed_messages. by apply map_without.
Qed.

Lemma without_comm m1 m2 l : without m1 (without m2 l) = without m2 (without m1 l).
Proof.
  induction l as [|x l IH]; [done|]. cbn.
  destruct (strict_eq x m2) eqn:E2, (strict_eq x m1) eqn:E1; cbn;
    rewrite ?E1, ?E2; cbn; fold (without m1 l) (without m2 l);
    fold (without m2 (without m1 l)) (without m1 (without m2 l)); by rewrite ?IH.
Qed.

(** X4.  Two dismissals give the same list in either order, and what is
    left are the entries that are [===] to neither message. *)
Theorem SimpleDialog_dismissals_commute (m1 m2 : JsValue) (st : ISimpleDialogState) :
  SimpleDialog._onMessageDismissed m1 (SimpleDialog._onMessageDismissed m2 st) =
    SimpleDialog._onMessageDismissed m2 (SimpleDialog._onMessageDismissed m1 st)
  ∧ ∀ x, x ∈ messages (SimpleDialog._onMessageDismissed m1
                         (SimpleDialog._onMessageDismissed m2 st))
         ↔ x ∈ messages st ∧ strict_eq x m1 = false ∧ strict_eq x m2 = false.
Proof.
  destruct st as [l]. unfold SimpleDialog._onMessageDismissed. cbn [messages].
  fold (without m2 l) (without m1 l).
  fold (without m1 (without m2 l)) (without m2 (without m1 l)).
  split; [by rewrite without_comm|].
  intros x. rewrite !elem_of_without. tauto.
Qed.

(** X5.  A descriptor with an [href] and no click handler is rendered as a
    link button: it keeps its kind, text, [href], [target] and styles and
    gets no click handler, so activating it calls nothing and leaves the
    messages alone. *)
Theorem link_button_has_no_handler (b : ISimpleDialogButtonProps) :
  truthy (btn_onClick b) = false →
  str_truthy (btn_href b) = true →
  ∃ e, SimpleDialog.render_button b = Some e
       ∧ element_face e = descriptor_face b
       ∧ be_onClick e = None
       ∧ ∀ event st (w : World U), activate ext e event st w = (Normal st, w).
Proof.
  intros Hc Hh. unfold SimpleDialog.render_button. rewrite Hc, Hh. cbn.
  eexists. split; [reflexivity|]. by repeat split.
Qed.

Lemma rendered_buttons_cons b (l : list ISimpleDialogButtonProps) :
  omap id (map SimpleDialog.render_button (b :: l)) =
    match SimpleDialog.render_button b with
    | Some e => e :: omap id (map SimpleDialog.render_button l)
    | None => omap id (map SimpleDialog.render_button l)
    end.
Proof. cbn. by destruct (SimpleDialog.render_button b). Qed.

(** X6.  The button stack has one entry per descriptor.  The buttons that
    are shown are those of the descriptors with a truthy click handler or
    a truthy [href], in the order of the descriptors, each with the kind,
    text, [href], [target] and styles of its descriptor. *)
Theorem SimpleDialog_buttons_in_order (props : ISimpleDialogProps) (st : ISimpleDialogState) :
  length (dlg_buttons (SimpleDialog.render props st)) = length (buttons props)
  ∧ map element_face (rendered_buttons (SimpleDialog.render props st)) =
      map descriptor_face
        (List.filter (λ b, truthy (btn_onClick b) || str_truthy (btn_href b))
           (buttons props)).
Proof.
  split; [cbn; apply length_map|].
  unfold rendered_buttons. cbn [SimpleDialog.render dlg_buttons].
  induction (buttons props) as [|b l IH]; [done|].
  rewrite rendered_buttons_cons. cbn [List.filter].
  unfold SimpleDialog.render_button at 1.
  destruct (truthy (btn_onClick b) || str_truthy (btn_href b)); [|done].
  cbn [map]. by rewrite IH.
Qed.
End Rendering.

(** ** Further properties of the variants *)

Section MoreVariants.
Context {U : Type}.
Variable ext : ExternFns U.

(** X7.  PromptDialog renders two buttons, first reject, a default button
    labelled [rejectButtonText || "No"], then confirm, a primary button
    labelled [confirmButtonText || "Yes"].  A label text that is absent or
    empty gives the default label, any other text is the label. *)
Theorem PromptDialog_buttons_and_labels
    (this : nat) (p : IPromptDialogProps) (st : ISimpleDialogState) :
  shown (SimpleDialog.render (PromptDialog.render this p) st) =
    [Some (Default, str_or (prompt_rejectButtonText p) "No");
     Some (Primary, str_or (prompt_confirmButtonText p) "Yes")]
  ∧ (∀ d, str_or None d = d ∧ str_or (Some "") d = d)
  ∧ (∀ s d, s ≠ "" → str_or (Some s) d = s).
Proof.
  split; [done|]. split; [done|].
  intros s d Hs. cbn. destruct (String.eqb_spec s ""); [done|reflexivity].
Qed.

(** X8.  The text field of a PromptDialog gets the props the caller gave
    for it, except [onChange], which is always the dialog's own handler: a
    change event stores the new value in [_value] and calls no function of
    the caller, not even an [onChange] passed in [textFieldProps]. *)
Theorem PromptDialog_text_field_props
    (this : nat) (p : IPromptDialogProps) (st : ISimpleDialogState) :
  ∃ field,
    prompt_field (dlg_message (SimpleDialog.render (PromptDialog.render this p) st))
      = Some field
    ∧ field !! "onChange" = Some (PFun (Prompt_onValueChanged this))
    ∧ (∀ k, k ≠ "onChange" → field !! k = spread (prompt_textFieldProps p) !! k)
    ∧ ∀ event newValue (w : World U),
        change ext field event newValue w =
          (Normal VUndefined,
           {| calls := calls w; console := console w;
              _value := <[this := newValue]> (_value w); user := user w |}).
Proof.
  exists (prompt_text_field this p). split; [apply prompt_field_rendered|].
  split; [apply lookup_insert_eq|]. split.
  - intros k Hk. unfold prompt_text_field. by rewrite lookup_insert_ne.
  - intros event newValue w. apply prompt_change.
Qed.

(** X9.  A click on a button of a PromptDialog leaves the uncommitted
    value as it is.  So a confirm that follows a reject still reports what
    was typed, and two confirms report the same value twice. *)
Theorem PromptDialog_clicks_keep_value
    (this : nat) (p : IPromptDialogProps) (event event' : JsValue)
    (st : ISimpleDialogState) (w : World U) :
  let v := default VUndefined (_value w !! this) in
  (∀ i, _value (click ext (PromptDialog.render this p) i event st w).2 = _value w)
  ∧ (st' ← click ext (PromptDialog.render this p) 0 event st;
     click ext (PromptDialog.render this p) 1 event' st') w =
      (Normal st,
       called ext (prompt_onClose p) [v] (called ext (prompt_onClose p) [VNull] w))
  ∧ (st' ← click ext (PromptDialog.render this p) 1 event st;
     click ext (PromptDialog.render this p) 1 event' st') w =
      (Normal st,
       called ext (prompt_onClose p) [v] (called ext (prompt_onClose p) [v] w)).
Proof.
  cbn zeta. split; [|split].
  - intros [|[|i]].
    + by rewrite PromptDialog_click_reject.
    + by rewrite PromptDialog_click_confirm.
    + by rewrite click_out_of_range by (cbn; lia).
  - unfold mbind, M_bind.
    by rewrite PromptDialog_click_reject, PromptDialog_click_confirm.
  - unfold mbind, M_bind. by rewrite !PromptDialog_click_confirm.
Qed.

(** X10.  Unless [messageAsLabel] is [true], a PromptDialog renders the
    message and the text field unwrapped and prints no warning, with or
    without a label for the field.  And whenever the body is wrapped in a
    label, the constructor given the same props printed no warning. *)
Theorem PromptDialog_without_messageAsLabel
    (this : nat) (p : IPromptDialogProps) (w : World U) :
  (prompt_messageAsLabel p ≠ Some true →
     PromptDialog.renderMessage this p =
       EFragment [message (prompt_base p); ETextField (prompt_text_field this p)]
     ∧ console (PromptDialog.constructor this p w).2 = console w)
  ∧ ((∃ children, PromptDialog.renderMessage this p = ELabel children) →
     console (PromptDialog.constructor this p w).2 = console w).
Proof.
  rewrite prompt_constructor_world. unfold PromptDialog.renderMessage. cbn [console snd].
  split.
  - intros Hm.
    destruct (prompt_messageAsLabel p) as [[|]|]; [done| |]; cbn;
      by rewrite app_nil_r.
  - intros [children Hc].
    destruct (default false (prompt_messageAsLabel p)); [|by rewrite app_nil_r].
    destruct (p_truthy (opt_get (prompt_textFieldProps p) "label"));
      [discriminate|by rewrite app_nil_r].
Qed.

(** X11.  Each variant hands its title and its message on: the dialog is
    titled [title || ''], and its body is the message of an AlertDialog or
    ConfirmDialog and the message composed with the text field of a
    PromptDialog. *)
Theorem variants_pass_title_and_message (st : ISimpleDialogState) :
  (∀ p, lookup_path ["dialogContentProps"; "title"]
          (PObj (dlg_props (SimpleDialog.render (AlertDialog.render p) st)))
          = Some (PStr (str_or (title (alert_base p)) ""))
        ∧ dlg_message (SimpleDialog.render (AlertDialog.render p) st)
            = message (alert_base p))
  ∧ (∀ p, lookup_path ["dialogContentProps"; "title"]
            (PObj (dlg_props (SimpleDialog.render (ConfirmDialog.render p) st)))
            = Some (PStr (str_or (title (confirm_base p)) ""))
          ∧ dlg_message (SimpleDialog.render (ConfirmDialog.render p) st)
              = message (confirm_base p))
  ∧ (∀ this p, lookup_path ["dialogContentProps"; "title"]
                 (PObj (dlg_props (SimpleDialog.render (PromptDialog.render this p) st)))
                 = Some (PStr (str_or (title (prompt_base p)) ""))
               ∧ dlg_message (SimpleDialog.render (PromptDialog.render this p) st)
                   = PromptDialog.renderMessage this p).
Proof.
  split; [|split]; intros; (split; [|done]);
    cbn [lookup_path SimpleDialog.render dlg_props];
    unfold SimpleDialog.render_dialog_props, SimpleDialog.render_dialogContentProps;
    rewrite lookup_insert_ne by done; rewrite lookup_insert_eq;
    by rewrite lookup_insert_eq.
Qed.

(** X12.  The handlers of ConfirmDialog and PromptDialog take no notice of
    the click event: whatever the event, a click does the same, and
    [onClose] never receives the event. *)
Theorem confirm_and_prompt_ignore_event :
  (∀ (p : IConfirmDialogProps) i event event' st (w : World U),
      click ext (ConfirmDialog.render p) i event st w =
        click ext (ConfirmDialog.render p) i event' st w)
  ∧ (∀ this (p : IPromptDialogProps) i event event' st (w : World U),
      click ext (PromptDialog.render this p) i event st w =
        click ext (PromptDialog.render this p) i event' st w).
Proof.
  split.
  - intros p [|[|i]] event event' st w.
    + by rewrite !ConfirmDialog_click_reject.
    + by rewrite !ConfirmDialog_click_confirm.
    + by rewrite !click_out_of_range by (cbn; lia).
  - intros this p [|[|i]] event event' st w.
    + by rewrite !PromptDialog_click_reject.
    + by rewrite !PromptDialog_click_confirm.
    + by rewrite !click_out_of_range by (cbn; lia).
Qed.
End MoreVariants.

Section CallLog.
Context {U : Type}.
Variable ext : ExternFns U.

Lemma call_closure_calls (c : Closure) (args : list JsValue) (w : World U) :
  ∃ extra, calls (call_closure ext c args w).2 = calls w ++ extra
           ∧ (length extra ≤ 1)%nat.
Proof.
  destruct c; cbn;
    unfold ConfirmDialog.onConfirm, ConfirmDialog.onReject,
      PromptDialog.onConfirm, PromptDialog.onReject,
      PromptDialog.onValueChanged, read_value, write_value,
      mbind, M_bind, mret, M_ret; cbn;
    rewrite ?call_extern_eq; cbn;
    first [ eexists [_]; split; [reflexivity | cbn; lia]
          | exists []; split; [by rewrite app_nil_r | cbn; lia] ].
Qed.

Lemma handle_calls props e st (w : World U) :
  ∃ extra, calls (handle ext props e st w).2 = calls w ++ extra
           ∧ (length extra ≤ if is_click e then 1 else 0)%nat.
Proof.
  assert (∀ n, ∃ extra : list (nat * list JsValue),
             calls w = calls w ++ extra ∧ (length extra ≤ n)%nat) as Hnone
    by (intros n; exists []; split; [by rewrite app_nil_r | cbn; lia]).
  destruct e as [i event|j]; cbn [handle is_click].
  - unfold click.
    destruct (dlg_buttons (SimpleDialog.render props st) !! i) as [[e|]|];
      try apply Hnone.
    unfold activate. destruct (be_onClick e) as [b|]; [|apply Hnone].
    destruct (btn_onClick b) eqn:Hb;
      try (rewrite _onButtonClicked_not_callable by (rewrite Hb; congruence);
           apply Hnone).
    destruct (call_closure_calls c [event] w) as (extra & Hcalls & Hlen).
    destruct (call_closure_normal ext c [event] w) as (r & w' & Hr).
    rewrite (_onButtonClicked_callable ext _ _ _ _ _ _ _ Hb Hr).
    rewrite Hr in Hcalls. by exists extra.
  - destruct (dlg_messageBars (SimpleDialog.render props st) !! j); apply Hnone.
Qed.

Lemma handle_normal props e st (w : World U) :
  ∃ st' w', handle ext props e st w = (Normal st', w').
Proof.
  destruct e as [i event|j]; cbn [handle].
  - destruct (click_step ext props i event st w) as (st' & w' & H & _). eauto.
  - destruct (dlg_messageBars (SimpleDialog.render props st) !! j); eauto.
Qed.

(** X13.  Over any use of a mounted SimpleDialog the log of calls only
    grows at its end, by at most one call for each click: a click calls at
    most one function of the caller, and dismissing a message calls none. *)
Theorem SimpleDialog_session_calls
    (props : ISimpleDialogProps) (events : list UserEvent) (w : World U) :
  ∃ extra,
    calls (mounted ext props events w).2 = calls w ++ extra
    ∧ (length extra ≤ length (List.filter is_click events))%nat.
Proof.
  unfold mounted. generalize (SimpleDialog.constructor props). revert w.
  induction events as [|e rest IH]; intros w st.
  - exists []. by rewrite app_nil_r.
  - cbn [session]. unfold mbind, M_bind.
    destruct (handle_calls props e st w) as (extra1 & H1 & L1).
    destruct (handle_normal props e st w) as (st1 & w1 & Hh).
    rewrite Hh in H1 |- *. cbn [snd] in H1.
    destruct (IH w1 st1) as (extra2 & H2 & L2).
    exists (extra1 ++ extra2). split.
    + by rewrite H2, H1, app_assoc.
    + rewrite length_app. cbn [List.filter].
      destruct (is_click e); cbn [length]; lia.
Qed.
End CallLog.

(** ** The further properties at work *)

Lemma SimpleDialog_session_invariant_witness :
  let st := {| messages := [Demo.saved; Demo.saved] |} in
  (mounted Demo.ext Scenario.dialog
     [Click 0 Demo.event; DismissBar 0; Click 0 Demo.event; Click 2 Demo.event;
      Click 0 Demo.event]
     Demo.world).1 = Normal st
  ∧ Forall (λ m, truthy m = true) (messages st)
  ∧ (length (messages st) ≤ 4)%nat.
Proof.
  cbn zeta. split; [by vm_compute|].
  apply (SimpleDialog_session_invariant Demo.ext Scenario.dialog
           [Click 0 Demo.event; DismissBar 0; Click 0 Demo.event; Click 2 Demo.event;
            Click 0 Demo.event]
           Demo.world).
  by vm_compute.
Defined.

Lemma SimpleDialog_dismiss_shortens_witness :
  let st := {| messages := [Demo.saved; Demo.saved] |} in
  let bar := SimpleDialog.render_message_bar Demo.saved in
  (mounted Demo.ext Scenario.dialog
     [Click 0 Demo.event; Click 1 Demo.event; Click 0 Demo.event; Click 2 Demo.event]
     Demo.world).1 = Normal st
  ∧ (length (messages (dismiss bar st)) < length (messages st))%nat
  ∧ mb_onDismiss bar ∉ messages (dismiss bar st).
Proof.
  cbn zeta. split; [by vm_compute|].
  apply (SimpleDialog_dismiss_shortens Demo.ext Scenario.dialog
           [Click 0 Demo.event; Click 1 Demo.event; Click 0 Demo.event; Click 2 Demo.event]
           Demo.world).
  - by vm_compute.
  - apply list_elem_of_In. left. reflexivity.
Defined.

Lemma link_button_has_no_handler_witness :
  ∃ e, SimpleDialog.render_button Scenario.link = Some e
       ∧ be_href e = Some "https://example.org/docs"
       ∧ be_onClick e = None
       ∧ activate Demo.ext e Demo.event Demo.empty Demo.world
           = (Normal Demo.empty, Demo.world).
Proof.
  destruct (link_button_has_no_handler Demo.ext Scenario.link eq_refl eq_refl)
    as (e & He & Hface & Hclick & Hact).
  exists e. split; [exact He|]. split; [|split; [exact Hclick | apply Hact]].
  by injection Hface as _ _ -> _ _.
Defined.

Lemma PromptDialog_buttons_and_labels_witness :
  shown (SimpleDialog.render (PromptDialog.render 0 Scenario.plain_prompt) Demo.empty)
    = [Some (Default, "No"); Some (Primary, "Send")].
Proof.
  destruct (PromptDialog_buttons_and_labels 0 Scenario.plain_prompt Demo.empty)
    as (Hshown & Hdefault & Hgiven).
  rewrite Hshown. cbn [Scenario.plain_prompt prompt_rejectButtonText
                        prompt_confirmButtonText].
  rewrite (proj2 (Hdefault "No")).
  rewrite (Hgiven "Send" "Yes"); [reflexivity | discriminate].
Defined.

Lemma PromptDialog_text_field_props_witness :
  ∃ field,
    prompt_field (dlg_message (SimpleDialog.render
                                 (PromptDialog.render 0 Scenario.plain_prompt) Demo.empty))
      = Some field
    ∧ field !! "label" = Some (PStr "Name")
    ∧ field !! "onChange" = Some (PFun (Prompt_onValueChanged 0))
    ∧ calls (change Demo.ext field Demo.event (VString "Ada") Demo.world).2 = [].
Proof.
  destruct (PromptDialog_text_field_props Demo.ext 0 Scenario.plain_prompt Demo.empty)
    as (field & Hfield & Hchange & Hother & Hrun).
  exists field. split; [exact Hfield|]. split; [|split; [exact Hchange|]].
  - rewrite (Hother "label") by discriminate. by vm_compute.
  - by rewrite Hrun.
Defined.

Lemma PromptDialog_without_messageAsLabel_witness :
  PromptDialog.renderMessage 0 Scenario.plain_prompt =
    EFragment [EText "What is your name?";
               ETextField (prompt_text_field 0 Scenario.plain_prompt)]
  ∧ console (PromptDialog.constructor 0 Scenario.plain_prompt Demo.world).2 = []
  ∧ console (PromptDialog.constructor 0 (Demo.prompt None) Demo.world).2 = [].
Proof.
  split; [|split].
  - apply (proj1 (PromptDialog_without_messageAsLabel 0 Scenario.plain_prompt Demo.world)).
    discriminate.
  - apply (proj1 (PromptDialog_without_messageAsLabel 0 Scenario.plain_prompt Demo.world)).
    discriminate.
  - apply (proj2 (PromptDialog_without_messageAsLabel 0 (Demo.prompt None) Demo.world)).
    eexists. reflexivity.
Defined.
